(** * Scene interaction engine of the excalidraw clone

    A shallow embedding of the editor core: the element constructors of
    [src/lib/elements.ts], the geometry library ([lib/geometry.ts]), and the
    history manager, zoom helper and pointer/keyboard handlers of
    [components/ExcalidrawApp.tsx].

    Numbers.  JavaScript numbers are modelled by exact rationals in canonical
    form ([Qc]), so that Leibniz equality is numeric equality.  Rounding,
    [NaN] and the infinities of IEEE doubles are outside the model; so is a
    division by zero, and a statement about the result of one names the
    divisor as non-zero.  The only divisor in the handlers that is neither
    a non-zero constant nor guarded by a test is the viewport zoom, which is
    never zero on a state the editor reaches ([reachable_stateOk]).

    Effects.  The component keeps React state and mutable refs.  Every
    handler is a function on one [State] record that holds both; a handler
    that would throw a [TypeError]/[SyntaxError] returns [None].  React is
    assumed to re-render between two events, so the shadow [stateRef] a
    handler reads is the state left by the previous handler. *)

From Stdlib Require Import Ascii QArith Qcanon Qcabs.
From stdpp Require Import gmap strings list.

Local Open Scope Qc_scope.
Local Open Scope list_scope.

(** ** Numbers *)

Definition num (z : Z) : Qc := Qc_of_Z z.
Definition frac (a : Z) (b : positive) : Qc := Q2Qc (a # b).

(** [Math.min], [Math.max] and [Math.abs] on two finite numbers. *)
Definition Qcmin (a b : Qc) : Qc := if decide (a ≤ b) then a else b.
Definition Qcmax (a b : Qc) : Qc := if decide (a ≤ b) then b else a.

(** [Math.min(...xs)] and [Math.max(...xs)] on a non-empty array, written
    with the first entry taken apart ([x0 :: xs]). *)
Definition minList (x0 : Qc) (xs : list Qc) : Qc := foldl Qcmin x0 xs.
Definition maxList (x0 : Qc) (xs : list Qc) : Qc := foldl Qcmax x0 xs.

(** The test [Math.sqrt(s) < t] for a radicand [s >= 0], decided without
    leaving the rationals: it holds exactly when [t] is positive and
    [s < t * t]. *)
Definition sqrt_lt (s t : Qc) : bool :=
  bool_decide (0 < t) && bool_decide (s < t * t).

(** ** types/index.ts *)

Inductive Tool :=
| Select | Hand | Rectangle | Ellipse | Diamond
| Arrow | Line | Freedraw | Text | Eraser.

#[global] Instance Tool_eq_dec : EqDecision Tool.
Proof. solve_decision. Defined.

Record Point := mkPoint { pt_x : Qc; pt_y : Qc }.

Inductive StrokeStyle := solid | dashed | dotted.
(** [ResizeHandle]: the compass names, prefixed. *)
Inductive ResizeHandle := h_nw | h_n | h_ne | h_e | h_se | h_s | h_sw | h_w.
Inductive TextAlign := align_left | align_center | align_right.

(** The discriminant [type] together with the fields each variant adds to
    [BaseElement]. *)
Inductive Shape :=
| RectangleT
| EllipseT
| DiamondT
| ArrowT (points : list Point)
| LineT (points : list Point)
| FreedrawT (points : list Point) (pressures : list Qc)
| TextT (text : string) (fontSize : Qc) (fontFamily : string)
        (textAlign : TextAlign).

Record ExcalidrawElement := mkElement {
  id : string;
  x : Qc;
  y : Qc;
  width : Qc;
  height : Qc;
  angle : Qc;
  strokeColor : string;
  fillColor : string;
  strokeWidth : Qc;
  strokeStyle : StrokeStyle;
  roughness : Qc;
  opacity : Qc;
  seed : Qc;
  isDeleted : bool;
  shape : Shape
}.

Record Viewport := mkViewport { zoom : Qc; offsetX : Qc; offsetY : Qc }.

Record DrawingProperties := mkProps {
  p_strokeColor : string;
  p_fillColor : string;
  p_strokeWidth : Qc;
  p_strokeStyle : StrokeStyle;
  p_roughness : Qc;
  p_opacity : Qc;
  p_fontSize : Qc;
  p_fontFamily : string
}.

(** [Partial<DrawingProperties>]: every field may be absent. *)
Record PartialProps := mkPartial {
  o_strokeColor : option string;
  o_fillColor : option string;
  o_strokeWidth : option Qc;
  o_strokeStyle : option StrokeStyle;
  o_roughness : option Qc;
  o_opacity : option Qc;
  o_fontSize : option Qc;
  o_fontFamily : option string
}.

Definition asPartial (p : DrawingProperties) : PartialProps :=
  {| o_strokeColor := Some (p_strokeColor p);
     o_fillColor := Some (p_fillColor p);
     o_strokeWidth := Some (p_strokeWidth p);
     o_strokeStyle := Some (p_strokeStyle p);
     o_roughness := Some (p_roughness p);
     o_opacity := Some (p_opacity p);
     o_fontSize := Some (p_fontSize p);
     o_fontFamily := Some (p_fontFamily p) |}.

(** An axis-aligned box [{x, y, width, height}]. *)
Record Box := mkBox { b_x : Qc; b_y : Qc; b_width : Qc; b_height : Qc }.

(** Functional record updates [{ ...el, field: v }]. *)
Definition with_xy (el : ExcalidrawElement) (nx ny : Qc) : ExcalidrawElement :=
  mkElement (id el) nx ny (width el) (height el) (angle el) (strokeColor el)
    (fillColor el) (strokeWidth el) (strokeStyle el) (roughness el)
    (opacity el) (seed el) (isDeleted el) (shape el).

Definition with_box (el : ExcalidrawElement) (b : Box) : ExcalidrawElement :=
  mkElement (id el) (b_x b) (b_y b) (b_width b) (b_height b) (angle el)
    (strokeColor el) (fillColor el) (strokeWidth el) (strokeStyle el)
    (roughness el) (opacity el) (seed el) (isDeleted el) (shape el).

Definition with_size (el : ExcalidrawElement) (w0 h0 : Qc) : ExcalidrawElement :=
  with_box el (mkBox (x el) (y el) w0 h0).

Definition with_isDeleted (el : ExcalidrawElement) (d : bool) : ExcalidrawElement :=
  mkElement (id el) (x el) (y el) (width el) (height el) (angle el)
    (strokeColor el) (fillColor el) (strokeWidth el) (strokeStyle el)
    (roughness el) (opacity el) (seed el) d (shape el).

Definition with_shape (el : ExcalidrawElement) (sh : Shape) : ExcalidrawElement :=
  mkElement (id el) (x el) (y el) (width el) (height el) (angle el)
    (strokeColor el) (fillColor el) (strokeWidth el) (strokeStyle el)
    (roughness el) (opacity el) (seed el) (isDeleted el) sh.

(** ** lib/constants.ts *)

Definition DEFAULT_STROKE_COLOR : string := "#1e1e1e".
Definition DEFAULT_FILL_COLOR : string := "transparent".
Definition DEFAULT_STROKE_WIDTH : Qc := num 2.
Definition DEFAULT_ROUGHNESS : Qc := num 1.
Definition DEFAULT_OPACITY : Qc := num 100.
Definition DEFAULT_FONT_SIZE : Qc := num 20.
Definition DEFAULT_FONT_FAMILY : string := "Caveat, cursive".
Definition SELECTION_PADDING : Qc := num 8.
Definition HANDLE_SIZE : Qc := num 8.
Definition HIT_THRESHOLD : Qc := num 8.
Definition MIN_ZOOM : Qc := frac 1 10.
Definition MAX_ZOOM : Qc := num 20.

(** ** lib/elements.ts *)

(** What [uuidv4()] and [Math.floor(Math.random() * 100000)] return for one
    call of [createBase]; supplied by the environment. *)
Record Fresh := mkFresh { freshId : string; freshSeed : Qc }.

(** [createBase] builds every common field; the result still awaits the
    discriminant and variant fields that [createElement] spreads over it. *)
Definition createBase (rnd : Fresh) (x0 y0 : Qc) (props : PartialProps)
  : Shape → ExcalidrawElement :=
  mkElement (freshId rnd) x0 y0 0 0 0
    (default DEFAULT_STROKE_COLOR (o_strokeColor props))
    (default DEFAULT_FILL_COLOR (o_fillColor props))
    (default DEFAULT_STROKE_WIDTH (o_strokeWidth props))
    (default solid (o_strokeStyle props))
    (default DEFAULT_ROUGHNESS (o_roughness props))
    (default DEFAULT_OPACITY (o_opacity props))
    (freshSeed rnd)
    false.

(** [createElement] is typed on [Exclude<Tool, 'select' | 'hand' | 'eraser'>];
    for the three excluded tools the [default:] branch throws. *)
Definition createElement (rnd : Fresh) (tool : Tool) (x0 y0 : Qc)
    (props : PartialProps) : option ExcalidrawElement :=
  let base := createBase rnd x0 y0 props in
  match tool with
  | Rectangle => Some (base RectangleT)
  | Ellipse => Some (base EllipseT)
  | Diamond => Some (base DiamondT)
  | Arrow => Some (base (ArrowT [mkPoint 0 0]))
  | Line => Some (base (LineT [mkPoint 0 0]))
  | Freedraw => Some (base (FreedrawT [mkPoint 0 0] [frac 1 2]))
  | Text =>
      let fs := default DEFAULT_FONT_SIZE (o_fontSize props) in
      Some (with_size
              (base (TextT "" fs
                       (default DEFAULT_FONT_FAMILY (o_fontFamily props))
                       align_left))
              (num 10) fs)
  | Select | Hand | Eraser => None
  end.

Definition normalizeRect (x1 y1 x2 y2 : Qc) : Box :=
  {| b_x := Qcmin x1 x2;
     b_y := Qcmin y1 y2;
     b_width := Qcabs (x2 - x1);
     b_height := Qcabs (y2 - y1) |}.

(** [text.split('\n')]. *)
Fixpoint splitLines (t : string) : list string :=
  match t with
  | EmptyString => [EmptyString]
  | String c r =>
      if Ascii.eqb c "010"%char then EmptyString :: splitLines r
      else match splitLines r with
           | l :: ls => String c l :: ls
           | [] => [String c EmptyString]
           end
  end.

(** [measureText]; [ctxWidth fontSize fontFamily l] stands for
    [ctx.measureText(l).width] on a 2D context whose font was set to
    [`${fontSize}px ${fontFamily}`]. *)
Definition measureText (ctxWidth : Qc → string → string → Qc)
    (t : string) (fontSize : Qc) (fontFamily : string) : Qc * Qc :=
  let lines := splitLines t in
  let maxWidth := maxList (num 10) (map (ctxWidth fontSize fontFamily) lines) in
  (maxWidth, num (Z.of_nat (length lines)) * fontSize * frac 135 100).

(** ** lib/geometry.ts *)

(** The radicand of [distanceBetween]; the square root itself is only ever
    compared with a threshold, see [sqrt_lt]. *)
Definition distanceBetweenSq (a b : Point) : Qc :=
  (pt_x b - pt_x a) * (pt_x b - pt_x a) + (pt_y b - pt_y a) * (pt_y b - pt_y a).

Definition distanceToSegmentSq (p a b : Point) : Qc :=
  let dx := pt_x b - pt_x a in
  let dy := pt_y b - pt_y a in
  let lenSq := dx * dx + dy * dy in
  if decide (lenSq = 0) then distanceBetweenSq p a
  else
    let t := ((pt_x p - pt_x a) * dx + (pt_y p - pt_y a) * dy) / lenSq in
    let t := Qcmax 0 (Qcmin 1 t) in
    distanceBetweenSq p (mkPoint (pt_x a + t * dx) (pt_y a + t * dy)).

(** The [points] of a path-like element, [None] for a box-like one. *)
Definition pathPoints (el : ExcalidrawElement) : option (list Point) :=
  match shape el with
  | ArrowT ps | LineT ps | FreedrawT ps _ => Some ps
  | _ => None
  end.

Definition getElementBounds (el : ExcalidrawElement) : Box :=
  match pathPoints el with
  | Some [] => mkBox (x el) (y el) 0 0
  | Some (p0 :: ps) =>
      let fx := fun p => x el + pt_x p in
      let fy := fun p => y el + pt_y p in
      let minX := minList (fx p0) (map fx ps) in
      let minY := minList (fy p0) (map fy ps) in
      mkBox minX minY
        (maxList (fx p0) (map fx ps) - minX)
        (maxList (fy p0) (map fy ps) - minY)
  | None => mkBox (x el) (y el) (width el) (height el)
  end.

(** The loop [for (i = 0; i < points.length - 1; i++)] over consecutive
    point pairs, returning [true] at the first segment nearer than [thr]. *)
Fixpoint nearSomeSegment (p : Point) (ox oy : Qc) (ps : list Point)
    (thr : Qc) : bool :=
  match ps with
  | p1 :: ((p2 :: _) as rest) =>
      if sqrt_lt
           (distanceToSegmentSq p
              (mkPoint (ox + pt_x p1) (oy + pt_y p1))
              (mkPoint (ox + pt_x p2) (oy + pt_y p2))) thr
      then true
      else nearSomeSegment p ox oy rest thr
  | _ => false
  end.

Definition isPointInElement (px py : Qc) (el : ExcalidrawElement)
    (threshold : Qc) : bool :=
  match shape el with
  | LineT ps | ArrowT ps =>
      nearSomeSegment (mkPoint px py) (x el) (y el) ps threshold
  | FreedrawT ps _ =>
      nearSomeSegment (mkPoint px py) (x el) (y el) ps (threshold / num 2)
  | _ =>
      bool_decide (x el ≤ px) && bool_decide (px ≤ x el + width el)
      && bool_decide (y el ≤ py) && bool_decide (py ≤ y el + height el)
  end.

(** The backwards loop of [getElementAtPoint]: the last entry of the array
    that is not deleted and contains the point. *)
Definition getElementAtPoint (elements : list ExcalidrawElement)
    (px py : Qc) (threshold : Qc) : option ExcalidrawElement :=
  head (filter (λ el, isDeleted el = false ∧
                      isPointInElement px py el threshold = true)
               (reverse elements)).

Definition inRect (rx ry rw rh : Qc) (el : ExcalidrawElement) : bool :=
  if isDeleted el then false
  else
    let b := getElementBounds el in
    bool_decide (rx ≤ b_x b) && bool_decide (ry ≤ b_y b)
    && bool_decide (b_x b + b_width b ≤ rx + rw)
    && bool_decide (b_y b + b_height b ≤ ry + rh).

Definition getElementsInRect (elements : list ExcalidrawElement)
    (rx ry rw rh : Qc) : list ExcalidrawElement :=
  filter (λ el, inRect rx ry rw rh el = true) elements.

(** The part of the DOM the handlers read: the canvas's bounding client
    rectangle and layout size, and the text metrics of its 2D context. *)
Record Canvas := mkCanvas {
  rect_left : Qc;
  rect_top : Qc;
  offsetWidth : Qc;
  offsetHeight : Qc;
  ctxWidth : Qc → string → string → Qc
}.

Definition clientToWorld (clientX clientY : Qc) (rect : Canvas)
    (viewport : Viewport) : Point :=
  {| pt_x := (clientX - rect_left rect) / zoom viewport + offsetX viewport;
     pt_y := (clientY - rect_top rect) / zoom viewport + offsetY viewport |}.

Definition getSelectionBounds (elements : list ExcalidrawElement)
    (selectedIds : gset string) : option Box :=
  let selected :=
    filter (λ el, id el ∈ selectedIds ∧ isDeleted el = false) elements in
  match map getElementBounds selected with
  | [] => None
  | b0 :: bs =>
      let bx := minList (b_x b0) (map b_x bs) in
      let by' := minList (b_y b0) (map b_y bs) in
      let x2 := maxList (b_x b0 + b_width b0) (map (λ b, b_x b + b_width b) bs) in
      let y2 := maxList (b_y b0 + b_height b0) (map (λ b, b_y b + b_height b) bs) in
      Some (mkBox bx by' (x2 - bx) (y2 - by'))
  end.

Definition getHandleAtScreenPoint (screenX screenY : Qc)
    (elements : list ExcalidrawElement) (selectedIds : gset string)
    (viewport : Viewport) : option ResizeHandle :=
  if decide (size selectedIds ≠ 1%nat) then None
  else
    match getSelectionBounds elements selectedIds with
    | None => None
    | Some bounds =>
        let pad := SELECTION_PADDING / zoom viewport in
        let bx := (b_x bounds - pad - offsetX viewport) * zoom viewport in
        let by' := (b_y bounds - pad - offsetY viewport) * zoom viewport in
        let bw := (b_width bounds + pad * num 2) * zoom viewport in
        let bh := (b_height bounds + pad * num 2) * zoom viewport in
        let handles :=
          [ (h_nw, bx, by'); (h_n, bx + bw / num 2, by'); (h_ne, bx + bw, by');
            (h_e, bx + bw, by' + bh / num 2); (h_se, bx + bw, by' + bh);
            (h_s, bx + bw / num 2, by' + bh); (h_sw, bx, by' + bh);
            (h_w, bx, by' + bh / num 2) ] in
        let hitR := HANDLE_SIZE + num 2 in
        (λ h, h.1.1) <$>
          head (filter (λ h, Qcabs (screenX - h.1.2) < hitR ∧
                             Qcabs (screenY - h.2) < hitR) handles)
    end.

Definition applyResize (orig : Box) (handle : ResizeHandle) (dx dy : Qc) : Box :=
  let '(x1, y1, w1, h1) :=
    match handle with
    | h_nw => (b_x orig + dx, b_y orig + dy, b_width orig - dx, b_height orig - dy)
    | h_n => (b_x orig, b_y orig + dy, b_width orig, b_height orig - dy)
    | h_ne => (b_x orig, b_y orig + dy, b_width orig + dx, b_height orig - dy)
    | h_e => (b_x orig, b_y orig, b_width orig + dx, b_height orig)
    | h_se => (b_x orig, b_y orig, b_width orig + dx, b_height orig + dy)
    | h_s => (b_x orig, b_y orig, b_width orig, b_height orig + dy)
    | h_sw => (b_x orig + dx, b_y orig, b_width orig - dx, b_height orig + dy)
    | h_w => (b_x orig + dx, b_y orig, b_width orig - dx, b_height orig)
    end in
  let w2 := if decide (w1 < num 2) then num 2 else w1 in
  let h2 := if decide (h1 < num 2) then num 2 else h1 in
  mkBox x1 y1 w2 h2.

(** ** components/ExcalidrawApp.tsx *)

(** The interaction state machine. *)
Inductive Interaction :=
| Idle
| Drawing (startX startY : Qc)
| Freedrawing
| Selecting (startX startY : Qc)
| Moving (startX startY : Qc) (origPositions : gmap string Point)
| Resizing (handle : ResizeHandle) (startX startY : Qc) (origBounds : Box)
           (elementId : string)
| Panning (startX startY : Qc) (origOffset : Point).

(** [historyRef.current]. *)
Record History := mkHistory {
  stack : list (list ExcalidrawElement);
  index : nat
}.

(** The component's React state ([tool] ... [editingTextId], [canUndo],
    [canRedo]), its refs ([historyRef], [drawingElRef], [selRectRef],
    [interactionRef], [isSpaceRef]) and the two DOM nodes it reads (the
    canvas and the value of the text-editing [textarea]). *)
Record State := mkState {
  st_tool : Tool;
  st_properties : DrawingProperties;
  st_elements : list ExcalidrawElement;
  st_selectedIds : gset string;
  st_viewport : Viewport;
  st_showGrid : bool;
  st_editingTextId : option string;
  st_history : History;
  st_canUndo : bool;
  st_canRedo : bool;
  st_drawingEl : option ExcalidrawElement;
  st_selRect : option Box;
  st_interaction : Interaction;
  st_isSpace : bool;
  st_canvas : Canvas;
  st_textarea : string
}.

(** Assignments to one state variable or ref. *)
Definition set_tool (v : Tool) (st : State) : State :=
  mkState v (st_properties st) (st_elements st) (st_selectedIds st)
    (st_viewport st) (st_showGrid st) (st_editingTextId st) (st_history st)
    (st_canUndo st) (st_canRedo st) (st_drawingEl st) (st_selRect st)
    (st_interaction st) (st_isSpace st) (st_canvas st) (st_textarea st).

Definition set_elements (v : list ExcalidrawElement) (st : State) : State :=
  mkState (st_tool st) (st_properties st) v (st_selectedIds st)
    (st_viewport st) (st_showGrid st) (st_editingTextId st) (st_history st)
    (st_canUndo st) (st_canRedo st) (st_drawingEl st) (st_selRect st)
    (st_interaction st) (st_isSpace st) (st_canvas st) (st_textarea st).

Definition set_selectedIds (v : gset string) (st : State) : State :=
  mkState (st_tool st) (st_properties st) (st_elements st) v
    (st_viewport st) (st_showGrid st) (st_editingTextId st) (st_history st)
    (st_canUndo st) (st_canRedo st) (st_drawingEl st) (st_selRect st)
    (st_interaction st) (st_isSpace st) (st_canvas st) (st_textarea st).

Definition set_viewport (v : Viewport) (st : State) : State :=
  mkState (st_tool st) (st_properties st) (st_elements st)
    (st_selectedIds st) v (st_showGrid st) (st_editingTextId st)
    (st_history st) (st_canUndo st) (st_canRedo st) (st_drawingEl st)
    (st_selRect st) (st_interaction st) (st_isSpace st) (st_canvas st)
    (st_textarea st).

Definition set_showGrid (v : bool) (st : State) : State :=
  mkState (st_tool st) (st_properties st) (st_elements st)
    (st_selectedIds st) (st_viewport st) v (st_editingTextId st)
    (st_history st) (st_canUndo st) (st_canRedo st) (st_drawingEl st)
    (st_selRect st) (st_interaction st) (st_isSpace st) (st_canvas st)
    (st_textarea st).

Definition set_editingTextId (v : option string) (st : State) : State :=
  mkState (st_tool st) (st_properties st) (st_elements st)
    (st_selectedIds st) (st_viewport st) (st_showGrid st) v (st_history st)
    (st_canUndo st) (st_canRedo st) (st_drawingEl st) (st_selRect st)
    (st_interaction st) (st_isSpace st) (st_canvas st) (st_textarea st).

Definition set_history (v : History) (st : State) : State :=
  mkState (st_tool st) (st_properties st) (st_elements st)
    (st_selectedIds st) (st_viewport st) (st_showGrid st)
    (st_editingTextId st) v (st_canUndo st) (st_canRedo st)
    (st_drawingEl st) (st_selRect st) (st_interaction st) (st_isSpace st)
    (st_canvas st) (st_textarea st).

Definition set_canUndo (v : bool) (st : State) : State :=
  mkState (st_tool st) (st_properties st) (st_elements st)
    (st_selectedIds st) (st_viewport st) (st_showGrid st)
    (st_editingTextId st) (st_history st) v (st_canRedo st)
    (st_drawingEl st) (st_selRect st) (st_interaction st) (st_isSpace st)
    (st_canvas st) (st_textarea st).

Definition set_canRedo (v : bool) (st : State) : State :=
  mkState (st_tool st) (st_properties st) (st_elements st)
    (st_selectedIds st) (st_viewport st) (st_showGrid st)
    (st_editingTextId st) (st_history st) (st_canUndo st) v
    (st_drawingEl st) (st_selRect st) (st_interaction st) (st_isSpace st)
    (st_canvas st) (st_textarea st).

Definition set_drawingEl (v : option ExcalidrawElement) (st : State) : State :=
  mkState (st_tool st) (st_properties st) (st_elements st)
    (st_selectedIds st) (st_viewport st) (st_showGrid st)
    (st_editingTextId st) (st_history st) (st_canUndo st) (st_canRedo st) v
    (st_selRect st) (st_interaction st) (st_isSpace st) (st_canvas st)
    (st_textarea st).

Definition set_selRect (v : option Box) (st : State) : State :=
  mkState (st_tool st) (st_properties st) (st_elements st)
    (st_selectedIds st) (st_viewport st) (st_showGrid st)
    (st_editingTextId st) (st_history st) (st_canUndo st) (st_canRedo st)
    (st_drawingEl st) v (st_interaction st) (st_isSpace st) (st_canvas st)
    (st_textarea st).

Definition set_interaction (v : Interaction) (st : State) : State :=
  mkState (st_tool st) (st_properties st) (st_elements st)
    (st_selectedIds st) (st_viewport st) (st_showGrid st)
    (st_editingTextId st) (st_history st) (st_canUndo st) (st_canRedo st)
    (st_drawingEl st) (st_selRect st) v (st_isSpace st) (st_canvas st)
    (st_textarea st).

Definition set_isSpace (v : bool) (st : State) : State :=
  mkState (st_tool st) (st_properties st) (st_elements st)
    (st_selectedIds st) (st_viewport st) (st_showGrid st)
    (st_editingTextId st) (st_history st) (st_canUndo st) (st_canRedo st)
    (st_drawingEl st) (st_selRect st) (st_interaction st) v (st_canvas st)
    (st_textarea st).

Definition set_textarea (v : string) (st : State) : State :=
  mkState (st_tool st) (st_properties st) (st_elements st)
    (st_selectedIds st) (st_viewport st) (st_showGrid st)
    (st_editingTextId st) (st_history st) (st_canUndo st) (st_canRedo st)
    (st_drawingEl st) (st_selRect st) (st_interaction st) (st_isSpace st)
    (st_canvas st) v.

(** Events, with the fields the handlers read. *)
Record MouseEvent := mkMouse {
  clientX : Qc;
  clientY : Qc;
  button : Z;
  shiftKey : bool;
  detail : Z
}.

Record WheelEvent := mkWheel {
  w_clientX : Qc;
  w_clientY : Qc;
  deltaX : Qc;
  deltaY : Qc;
  w_ctrlKey : bool;
  w_metaKey : bool
}.

(** [inInput] is the test on [e.target.tagName] at the top of [onKeyDown]. *)
Record KeyboardEvent := mkKey {
  key : string;
  k_ctrlKey : bool;
  k_metaKey : bool;
  k_shiftKey : bool;
  inInput : bool
}.

(** [JSON.parse(JSON.stringify(v))] on a scene: plain finite data comes back
    structurally equal and shares nothing with [v].  Values here carry no
    identity, so the copy is the value. *)
Definition deepCopy (els : list ExcalidrawElement) : list ExcalidrawElement :=
  els.

(** *** History helpers *)

Definition pushHistory (els : list ExcalidrawElement) (st : State) : State :=
  let h := st_history st in
  let newStack := take (index h + 1) (stack h) ++ [deepCopy els] in
  set_canRedo false
    (set_canUndo (bool_decide (1 < length newStack)%nat)
       (set_history (mkHistory newStack (length newStack - 1)) st)).

(** [stack[newIndex]] outside the array is [undefined], on which
    [JSON.parse(JSON.stringify(..))] throws. *)
Definition undo (st : State) : option State :=
  let h := st_history st in
  if decide (0 < index h)%nat then
    let newIndex := (index h - 1)%nat in
    snap ← stack h !! newIndex;
    Some (set_canRedo true
            (set_canUndo (bool_decide (0 < newIndex)%nat)
               (set_selectedIds ∅
                  (set_elements (deepCopy snap)
                     (set_history (mkHistory (stack h) newIndex) st)))))
  else Some st.

Definition redo (st : State) : option State :=
  let h := st_history st in
  if decide (index h < length (stack h) - 1)%nat then
    let newIndex := (index h + 1)%nat in
    snap ← stack h !! newIndex;
    Some (set_canRedo (bool_decide (newIndex < length (stack h) - 1)%nat)
            (set_canUndo true
               (set_selectedIds ∅
                  (set_elements (deepCopy snap)
                     (set_history (mkHistory (stack h) newIndex) st)))))
  else Some st.

(** *** Zoom helper *)

Definition zoomAround (centerX centerY newZoom : Qc) (st : State) : State :=
  let viewport := st_viewport st in
  let clamped := Qcmax MIN_ZOOM (Qcmin MAX_ZOOM newZoom) in
  let newOffsetX :=
    offsetX viewport + centerX * (1 / zoom viewport - 1 / clamped) in
  let newOffsetY :=
    offsetY viewport + centerY * (1 / zoom viewport - 1 / clamped) in
  set_viewport (mkViewport clamped newOffsetX newOffsetY) st.

(** *** Text editing *)

(** [startTextEditing(el)] for a text element with id [elId] and content
    [elText]; the deferred callback has put [el.text] into the textarea by
    the time the next event arrives. *)
Definition startTextEditing (elId elText : string) (st : State) : State :=
  set_textarea elText
    (set_selectedIds {[ elId ]} (set_editingTextId (Some elId) st)).

(** [t.trim() === ''], on the white space of the ASCII range. *)
Fixpoint isBlank (t : string) : bool :=
  match t with
  | EmptyString => true
  | String c r =>
      let k := nat_of_ascii c in
      (bool_decide (k = 32) || bool_decide (9 ≤ k ≤ 13))%nat && isBlank r
  end.

(** A non-empty string is truthy. *)
Definition truthy (o : option string) : option string :=
  match o with
  | Some EmptyString | None => None
  | Some i => Some i
  end.

Definition commitTextEdit (st : State) : State :=
  match truthy (st_editingTextId st) with
  | None => st
  | Some editingTextId =>
      let t := st_textarea st in
      let newEls :=
        foldl (λ acc el,
          match shape el with
          | TextT elText fontSize fontFamily al =>
              if decide (id el ≠ editingTextId) then acc ++ [el]
              else if isBlank t && bool_decide (elText = EmptyString) then acc
              else
                let '(mw, mh) :=
                  measureText (ctxWidth (st_canvas st)) t fontSize fontFamily in
                acc ++ [with_size
                          (with_shape el (TextT t fontSize fontFamily al))
                          (Qcmax mw (num 10)) (Qcmax mh fontSize)]
          | _ => acc ++ [el]
          end) [] (st_elements st) in
      set_editingTextId None (pushHistory newEls (set_elements newEls st))
  end.

(** *** Mouse down on canvas *)

(** [elements.find((e) => e.id === i)]. *)
Definition findById (i : string) (elements : list ExcalidrawElement)
  : option ExcalidrawElement :=
  List.find (λ el, bool_decide (id el = i)) elements.

(** [new Map([...activeIds].map(...))]: the original position of every
    active id.  An id that no element carries makes [el.x] throw. *)
Definition captureOrigPositions (activeIds : gset string)
    (elements : list ExcalidrawElement) : option (gmap string Point) :=
  list_to_map <$>
    mapM (λ i, el ← findById i elements; Some (i, mkPoint (x el) (y el)))
         (base.elements activeIds).

(** The ids that will be dragged after a click on [hitId]. *)
Definition activeIdsOf (shift : bool) (selectedIds : gset string)
    (hitId : string) : gset string :=
  if shift then selectedIds ∪ {[ hitId ]}
  else if decide (hitId ∈ selectedIds) then selectedIds
  else {[ hitId ]}.

(** The selection written by a click on [hitId] ([setSelectedIds] is not
    called for an un-shifted click on a selected element). *)
Definition clickSelection (shift : bool) (selectedIds : gset string)
    (hitId : string) : gset string :=
  if negb shift && bool_decide (hitId ∉ selectedIds) then {[ hitId ]}
  else if shift then
    (if decide (hitId ∈ selectedIds) then selectedIds ∖ {[ hitId ]}
     else selectedIds ∪ {[ hitId ]})
  else selectedIds.

(** [el.text] when [el.type === 'text']. *)
Definition textOf (el : ExcalidrawElement) : option string :=
  match shape el with
  | TextT elText _ _ _ => Some elText
  | _ => None
  end.

(** The select-tool branch from [// Hit-test elements] on. *)
Definition selectHitTest (ev : MouseEvent) (world : Point) (st : State)
  : option State :=
  let elements := st_elements st in
  let selectedIds := st_selectedIds st in
  match getElementAtPoint elements (pt_x world) (pt_y world) HIT_THRESHOLD with
  | Some hit =>
      match (if decide (detail ev = 2%Z) then textOf hit else None) with
      | Some elText => Some (startTextEditing (id hit) elText st)
      | None =>
          origPositions ←
            captureOrigPositions
              (activeIdsOf (shiftKey ev) selectedIds (id hit)) elements;
          Some (set_interaction
                  (Moving (pt_x world) (pt_y world) origPositions)
                  (set_selectedIds
                     (clickSelection (shiftKey ev) selectedIds (id hit)) st))
      end
  | None =>
      Some (set_interaction (Selecting (pt_x world) (pt_y world))
              (set_selectedIds ∅ st))
  end.

Definition selectDown (ev : MouseEvent) (world : Point) (st : State)
  : option State :=
  let elements := st_elements st in
  let selectedIds := st_selectedIds st in
  let rect := st_canvas st in
  let screenX := clientX ev - rect_left rect in
  let screenY := clientY ev - rect_top rect in
  match getHandleAtScreenPoint screenX screenY elements selectedIds
          (st_viewport st),
        getSelectionBounds elements selectedIds,
        truthy (head (base.elements selectedIds)) with
  | Some handle, Some bounds, Some elementId =>
      Some (set_interaction
              (Resizing handle (pt_x world) (pt_y world) bounds elementId) st)
  | _, _, _ => selectHitTest ev world st
  end.

Definition handleMouseDown (rnd : Fresh) (ev : MouseEvent) (st : State)
  : option State :=
  if bool_decide (is_Some (truthy (st_editingTextId st)))
  then Some (commitTextEdit st)
  else
    let elements := st_elements st in
    let viewport := st_viewport st in
    let props := asPartial (st_properties st) in
    let world := clientToWorld (clientX ev) (clientY ev) (st_canvas st) viewport in
    if bool_decide (st_tool st = Hand) || bool_decide (button ev = 1%Z)
       || (bool_decide (button ev = 0%Z) && st_isSpace st)
    then
      Some (set_interaction
              (Panning (clientX ev) (clientY ev)
                 (mkPoint (offsetX viewport) (offsetY viewport))) st)
    else if decide (button ev ≠ 0%Z) then Some st
    else
      match st_tool st with
      | Select => selectDown ev world st
      | Eraser =>
          match getElementAtPoint elements (pt_x world) (pt_y world)
                  HIT_THRESHOLD with
          | Some hit =>
              let newEls :=
                map (λ el, if decide (id el = id hit)
                           then with_isDeleted el true else el) elements in
              Some (set_selectedIds ∅
                      (pushHistory newEls (set_elements newEls st)))
          | None => Some st
          end
      | Text =>
          match hit ← getElementAtPoint elements (pt_x world) (pt_y world)
                        HIT_THRESHOLD;
                elText ← textOf hit; Some (id hit, elText) with
          | Some (hitId, elText) => Some (startTextEditing hitId elText st)
          | None =>
              newEl ← createElement rnd Text (pt_x world) (pt_y world) props;
              Some (startTextEditing (id newEl) EmptyString
                      (set_elements (elements ++ [newEl]) st))
          end
      | Freedraw =>
          newEl ← createElement rnd Freedraw (pt_x world) (pt_y world) props;
          Some (set_interaction Freedrawing (set_drawingEl (Some newEl) st))
      | Rectangle | Ellipse | Diamond | Arrow | Line =>
          newEl ← createElement rnd (st_tool st) (pt_x world) (pt_y world) props;
          Some (set_interaction (Drawing (pt_x world) (pt_y world))
                  (set_drawingEl (Some newEl) st))
      | Hand => Some st
      end.

(** *** Window mouse move *)

(** The [moving] case: every element with a captured original position is
    put at that position plus the drag delta. *)
Definition moveElements (origPositions : gmap string Point) (dx dy : Qc)
    (elements : list ExcalidrawElement) : list ExcalidrawElement :=
  map (λ el, match origPositions !! id el with
             | None => el
             | Some orig => with_xy el (pt_x orig + dx) (pt_y orig + dy)
             end) elements.

(** The [freedrawing] case reads [el.points] and [el.pressures] of the
    pending element; spreading a missing one throws. *)
Definition onMouseMove (ev : MouseEvent) (st : State) : option State :=
  let elements := st_elements st in
  let viewport := st_viewport st in
  let world := clientToWorld (clientX ev) (clientY ev) (st_canvas st) viewport in
  match st_interaction st with
  | Idle => Some st
  | Panning startX startY origOffset =>
      let dx := (clientX ev - startX) / zoom viewport in
      let dy := (clientY ev - startY) / zoom viewport in
      Some (set_viewport
              (mkViewport (zoom viewport) (pt_x origOffset - dx)
                 (pt_y origOffset - dy)) st)
  | Drawing startX startY =>
      match st_drawingEl st with
      | None => Some st
      | Some el =>
          let twoPoints :=
            [mkPoint 0 0; mkPoint (pt_x world - x el) (pt_y world - y el)] in
          let el' :=
            match shape el with
            | LineT _ => with_shape el (LineT twoPoints)
            | ArrowT _ => with_shape el (ArrowT twoPoints)
            | _ => with_box el
                     (normalizeRect startX startY (pt_x world) (pt_y world))
            end in
          Some (set_drawingEl (Some el') st)
      end
  | Freedrawing =>
      match st_drawingEl st with
      | None => Some st
      | Some el =>
          match shape el with
          | FreedrawT points pressures =>
              Some (set_drawingEl
                      (Some (with_shape el
                               (FreedrawT
                                  (points ++ [mkPoint (pt_x world - x el)
                                                (pt_y world - y el)])
                                  (pressures ++ [frac 1 2])))) st)
          | _ => None
          end
      end
  | Selecting startX startY =>
      let rx := Qcmin startX (pt_x world) in
      let ry := Qcmin startY (pt_y world) in
      let rw := Qcabs (pt_x world - startX) in
      let rh := Qcabs (pt_y world - startY) in
      let inside := getElementsInRect elements rx ry rw rh in
      Some (set_selectedIds (list_to_set (map id inside))
              (set_selRect (Some (mkBox rx ry rw rh)) st))
  | Moving startX startY origPositions =>
      let dx := pt_x world - startX in
      let dy := pt_y world - startY in
      Some (set_elements (moveElements origPositions dx dy elements) st)
  | Resizing handle startX startY origBounds elementId =>
      let dx := pt_x world - startX in
      let dy := pt_y world - startY in
      let b := applyResize origBounds handle dx dy in
      Some (set_elements
              (map (λ el, if decide (id el = elementId) then with_box el b
                          else el) elements) st)
  end.

(** *** Window mouse up *)

(** The minimum-size check of [onMouseUp]. *)
Definition isValid (el : ExcalidrawElement) : bool :=
  match pathPoints el with
  | Some points => bool_decide (2 ≤ length points)%nat
  | None =>
      bool_decide (num 2 < Qcabs (width el))
      || bool_decide (num 2 < Qcabs (height el))
  end.

Definition onMouseUp (st : State) : State :=
  let interaction := st_interaction st in
  let st1 :=
    match interaction with
    | Drawing _ _ | Freedrawing =>
        let st' :=
          match st_drawingEl st with
          | Some el =>
              if isValid el then
                let newEls := st_elements st ++ [el] in
                set_selectedIds {[ id el ]}
                  (pushHistory newEls (set_elements newEls st))
              else st
          | None => st
          end in
        set_drawingEl None st'
    | _ => st
    end in
  let st2 :=
    match interaction with
    | Selecting _ _ => set_selRect None st1
    | _ => st1
    end in
  let st3 :=
    match interaction with
    | Moving _ _ _ | Resizing _ _ _ _ _ => pushHistory (st_elements st2) st2
    | _ => st2
    end in
  set_interaction Idle st3.

(** *** Mouse wheel: zoom and pan *)

Definition handleWheel (ev : WheelEvent) (st : State) : State :=
  let rect := st_canvas st in
  let cx := w_clientX ev - rect_left rect in
  let cy := w_clientY ev - rect_top rect in
  let viewport := st_viewport st in
  if w_ctrlKey ev || w_metaKey ev then
    let scale := if decide (deltaY ev < 0) then frac 11 10 else frac 9 10 in
    zoomAround cx cy (zoom viewport * scale) st
  else
    let dx := deltaX ev / zoom viewport in
    let dy := deltaY ev / zoom viewport in
    set_viewport
      (mkViewport (zoom viewport) (offsetX viewport + dx)
         (offsetY viewport + dy)) st.

(** *** Tool change *)

(** [setTool], the state setter that both the keyboard shortcuts and the
    toolbar's [onToolChange] call. *)
Definition setTool (t : Tool) (st : State) : State := set_tool t st.

(** *** Buttons *)

(** [clearCanvas]; [confirmed] is the answer of [window.confirm]. *)
Definition clearCanvas (confirmed : bool) (st : State) : State :=
  if confirmed then pushHistory [] (set_selectedIds ∅ (set_elements [] st))
  else st.

(** The [onClick] of the zoom-out and zoom-in buttons and of the zoom
    percentage between them. *)
Definition zoomOutClick (st : State) : State :=
  zoomAround (offsetWidth (st_canvas st) / num 2)
    (offsetHeight (st_canvas st) / num 2)
    (zoom (st_viewport st) / frac 12 10) st.

Definition zoomInClick (st : State) : State :=
  zoomAround (offsetWidth (st_canvas st) / num 2)
    (offsetHeight (st_canvas st) / num 2)
    (zoom (st_viewport st) * frac 12 10) st.

Definition zoomResetClick (st : State) : State :=
  set_viewport (mkViewport 1 0 0) st.

(** *** Keyboard shortcuts *)

Definition toolMap (k : string) : option Tool :=
  if decide (k = "v" ∨ k = "1") then Some Select
  else if decide (k = "h" ∨ k = "2") then Some Hand
  else if decide (k = "r" ∨ k = "3") then Some Rectangle
  else if decide (k = "o" ∨ k = "4") then Some Ellipse
  else if decide (k = "d" ∨ k = "5") then Some Diamond
  else if decide (k = "a" ∨ k = "6") then Some Arrow
  else if decide (k = "l" ∨ k = "7") then Some Line
  else if decide (k = "p" ∨ k = "8") then Some Freedraw
  else if decide (k = "t" ∨ k = "9") then Some Text
  else if decide (k = "e" ∨ k = "0") then Some Eraser
  else None.

Definition onKeyDown (ev : KeyboardEvent) (st : State) : option State :=
  let k := key ev in
  let st :=
    if bool_decide (k = " ") && negb (inInput ev) then set_isSpace true st
    else st in
  let canvas := st_canvas st in
  let ctrl := k_ctrlKey ev || k_metaKey ev in
  if inInput ev then
    Some (if decide (k = "Escape") then commitTextEdit st else st)
  else if ctrl && bool_decide (k = "z") then
    if k_shiftKey ev then redo st else undo st
  else if ctrl && bool_decide (k = "y") then redo st
  else if ctrl && bool_decide (k = "a") then
    Some (set_selectedIds
            (list_to_set
               (map id (filter (λ el, isDeleted el = false) (st_elements st))))
            st)
  else if ctrl && bool_decide (k = "=" ∨ k = "+") then
    Some (zoomAround (offsetWidth canvas / num 2) (offsetHeight canvas / num 2)
            (zoom (st_viewport st) * frac 115 100) st)
  else if ctrl && bool_decide (k = "-") then
    Some (zoomAround (offsetWidth canvas / num 2) (offsetHeight canvas / num 2)
            (zoom (st_viewport st) / frac 115 100) st)
  else if ctrl && bool_decide (k = "0") then
    Some (set_viewport (mkViewport 1 0 0) st)
  else
    match (if ctrl then None else toolMap k) with
    | Some t => Some (setTool t st)
    | None =>
        if decide (k = "Delete" ∨ k = "Backspace") then
          let selectedIds := st_selectedIds st in
          if decide (0 < size selectedIds)%nat then
            let newEls :=
              map (λ el, if decide (id el ∈ selectedIds)
                         then with_isDeleted el true else el)
                  (st_elements st) in
            Some (set_selectedIds ∅
                    (pushHistory newEls (set_elements newEls st)))
          else Some st
        else if decide (k = "Escape") then
          Some (commitTextEdit
                  (set_selectedIds ∅
                     (set_interaction Idle
                        (set_selRect None (set_drawingEl None st)))))
        else if decide (k = "g" ∨ k = "G") then
          Some (set_showGrid (negb (st_showGrid st)) st)
        else Some st
    end.

Definition onKeyUp (ev : KeyboardEvent) (st : State) : State :=
  if decide (key ev = " ") then set_isSpace false st else st.

(** The state the component mounts with (the initial values of its
    [useState] and [useRef] calls), over a given canvas. *)
Definition initialState (canvas : Canvas) : State :=
  {| st_tool := Select;
     st_properties :=
       mkProps DEFAULT_STROKE_COLOR DEFAULT_FILL_COLOR DEFAULT_STROKE_WIDTH
         solid DEFAULT_ROUGHNESS DEFAULT_OPACITY DEFAULT_FONT_SIZE
         DEFAULT_FONT_FAMILY;
     st_elements := [];
     st_selectedIds := ∅;
     st_viewport := mkViewport 1 0 0;
     st_showGrid := false;
     st_editingTextId := None;
     st_history := mkHistory [[]] 0;
     st_canUndo := false;
     st_canRedo := false;
     st_drawingEl := None;
     st_selRect := None;
     st_interaction := Idle;
     st_isSpace := false;
     st_canvas := canvas;
     st_textarea := EmptyString |}.


(** *** Gestures *)

(** A run of [mousemove] events, delivered in order; the run stops at the
    first handler that throws. *)
Fixpoint moves (evs : list MouseEvent) (st : State) : option State :=
  match evs with
  | [] => Some st
  | ev :: rest => st' ← onMouseMove ev st; moves rest st'
  end.

(** The world point under the pointer of [ev], as every handler computes
    it from the current canvas rectangle and viewport. *)
Definition worldOf (st : State) (ev : MouseEvent) : Point :=
  clientToWorld (clientX ev) (clientY ev) (st_canvas st) (st_viewport st).


(** *** The editor as a state machine *)

(** The events of the canvas, the window, the toolbar, the zoom controls
    and the text-editing textarea (typing replaces its value).  The
    property panel, the theme switch and the PNG export are left out. *)
Inductive Event :=
| MouseDown (rnd : Fresh) (ev : MouseEvent)
| MouseMove (ev : MouseEvent)
| MouseUp
| Wheel (ev : WheelEvent)
| KeyDown (ev : KeyboardEvent)
| KeyUp (ev : KeyboardEvent)
| ToolbarTool (t : Tool)
| ToolbarUndo
| ToolbarRedo
| ToolbarGrid
| ToolbarClear (confirmed : bool)
| ZoomOut
| ZoomIn
| ZoomReset
| TextareaInput (value : string)
| TextareaBlur.

Definition step (e : Event) (st : State) : option State :=
  match e with
  | MouseDown rnd ev => handleMouseDown rnd ev st
  | MouseMove ev => onMouseMove ev st
  | MouseUp => Some (onMouseUp st)
  | Wheel ev => Some (handleWheel ev st)
  | KeyDown ev => onKeyDown ev st
  | KeyUp ev => Some (onKeyUp ev st)
  | ToolbarTool t => Some (setTool t st)
  | ToolbarUndo => undo st
  | ToolbarRedo => redo st
  | ToolbarGrid => Some (set_showGrid (negb (st_showGrid st)) st)
  | ToolbarClear confirmed => Some (clearCanvas confirmed st)
  | ZoomOut => Some (zoomOutClick st)
  | ZoomIn => Some (zoomInClick st)
  | ZoomReset => Some (zoomResetClick st)
  | TextareaInput value => Some (set_textarea value st)
  | TextareaBlur => Some (commitTextEdit st)
  end.

(** A session: the events handled one after the other from a state. *)
Fixpoint run (es : list Event) (st : State) : option State :=
  match es with
  | [] => Some st
  | e :: rest => st' ← step e st; run rest st'
  end.

(** The history invariant: the cursor is an index into the stack. *)
Definition cursorValid (st : State) : Prop :=
  (index (st_history st) < length (stack (st_history st)))%nat.

(** The viewport invariant, and the two invariants together. *)
Definition zoomValid (st : State) : Prop :=
  MIN_ZOOM ≤ zoom (st_viewport st) ≤ MAX_ZOOM.

Definition stateOk (st : State) : Prop := cursorValid st ∧ zoomValid st.

(** The tools whose pointer-down starts a [drawing] gesture, and the two
    families among them. *)
Definition isShapeTool (t : Tool) : bool :=
  match t with
  | Rectangle | Ellipse | Diamond | Arrow | Line => true
  | _ => false
  end.

Definition isBoxTool (t : Tool) : bool :=
  match t with
  | Rectangle | Ellipse | Diamond => true
  | _ => false
  end.

Definition isPathTool (t : Tool) : bool :=
  match t with
  | Arrow | Line => true
  | _ => false
  end.

(** The variants these tools create. *)
Definition boxShape (sh : Shape) : Prop :=
  sh = RectangleT ∨ sh = EllipseT ∨ sh = DiamondT.

Definition pathCtor (mk : list Point → Shape) : Prop :=
  mk = LineT ∨ mk = ArrowT.

(** ** Sample data *)

(** A canvas at the page origin whose text metrics give every character
    half the font size. *)
Definition sampleCanvas : Canvas :=
  mkCanvas 0 0 (num 800) (num 600)
    (λ fontSize _ l, fontSize * frac 1 2 * num (Z.of_nat (String.length l))).

(** A 100 x 100 rectangle with id [i] at [(x0, y0)]. *)
Definition sampleRect (i : string) (x0 y0 : Qc) : ExcalidrawElement :=
  with_size
    (createBase (mkFresh i (num 7)) x0 y0
       (asPartial (st_properties (initialState sampleCanvas))) RectangleT)
    (num 100) (num 100).

(** The mounted editor after one rectangle ["a"] was committed and
    selected: history [[[]; [a]]] with the cursor on 1. *)
Definition oneRectState : State :=
  set_selectedIds {[ "a" ]}
    (pushHistory [sampleRect "a" 0 0]
       (set_elements [sampleRect "a" 0 0] (initialState sampleCanvas))).

(** The same history with the cursor moved back to 0. *)
Definition rewoundState : State :=
  set_selectedIds {[ "a" ]}
    (set_history (mkHistory [ []; [sampleRect "a" 0 0] ] 0) oneRectState).

(** Pointer events: a primary-button press, with or without shift, and a
    move. *)
Definition sampleFresh : Fresh := mkFresh "n" (num 42).
Definition press (cx cy : Z) : MouseEvent := mkMouse (num cx) (num cy) 0 false 1.
Definition dragTo (cx cy : Z) : MouseEvent := mkMouse (num cx) (num cy) 0 false 0.


(** The mounted editor with the rectangle, resp. the line, tool chosen. *)
Definition rectToolState : State := setTool Rectangle (initialState sampleCanvas).
Definition lineToolState : State := setTool Line (initialState sampleCanvas).






(** The key event of a plain letter typed outside any input. *)
Definition plainKey (k : string) : KeyboardEvent := mkKey k false false false false.

(** * Properties *)

(** ** History manager *)

Lemma pushHistory_stack els st :
  stack (st_history (pushHistory els st))
  = take (index (st_history st) + 1) (stack (st_history st)) ++ [els].
Proof. reflexivity. Qed.

Lemma pushHistory_index els st :
  index (st_history (pushHistory els st))
  = length (take (index (st_history st) + 1) (stack (st_history st))).
Proof.
  cbn. rewrite length_app. cbn. lia.
Qed.

Lemma pushHistory_top els st :
  stack (st_history (pushHistory els st))
    !! index (st_history (pushHistory els st)) = Some els.
Proof.
  rewrite pushHistory_index, pushHistory_stack.
  rewrite lookup_app_r by lia. by rewrite Nat.sub_diag.
Qed.

Lemma redo_after_push els st : redo (pushHistory els st) = Some (pushHistory els st).
Proof.
  unfold redo. rewrite pushHistory_index, pushHistory_stack, length_app. cbn [length].
  case_decide; [lia | done].
Qed.

(** C1.  The history is a linear, branch-discarding stack.  From any state,
    [push A; push B; undo] restores scene [A] and a following [redo]
    restores [B]; [undo] at cursor 0 and [redo] at the last index leave the
    state as it is; [push C] keeps the entries [0..cursor], appends [C] and
    puts the cursor on it, so that a following [redo] does nothing. *)
Theorem history_linear (st : State) (A B C : list ExcalidrawElement) :
  (∃ st1 st2,
      undo (pushHistory B (pushHistory A st)) = Some st1 ∧ st_elements st1 = A ∧
      redo st1 = Some st2 ∧ st_elements st2 = B) ∧
  (index (st_history st) = 0%nat → undo st = Some st) ∧
  (index (st_history st) = (length (stack (st_history st)) - 1)%nat →
   redo st = Some st) ∧
  (stack (st_history (pushHistory C st))
   = take (index (st_history st) + 1) (stack (st_history st)) ++ [C] ∧
   index (st_history (pushHistory C st))
   = (length (stack (st_history (pushHistory C st))) - 1)%nat ∧
   (index (st_history st) < length (stack (st_history st)) →
    length (stack (st_history (pushHistory C st)))
    = index (st_history st) + 2)%nat ∧
   redo (pushHistory C st) = Some (pushHistory C st)).
Proof.
  split; [|split; [|split]].
  - set (sA := pushHistory A st).
    assert (HA : stack (st_history sA) !! index (st_history sA) = Some A)
      by apply pushHistory_top.
    assert (HiB : index (st_history (pushHistory B sA)) = S (index (st_history sA))).
    { rewrite pushHistory_index. apply lookup_lt_Some in HA.
      rewrite length_take. lia. }
    assert (HsB : stack (st_history (pushHistory B sA))
                  = take (index (st_history sA) + 1) (stack (st_history sA)) ++ [B])
      by apply pushHistory_stack.
    assert (HlA : stack (st_history (pushHistory B sA)) !! index (st_history sA) = Some A).
    { rewrite HsB, lookup_app_l.
      - rewrite lookup_take_lt by lia. done.
      - apply lookup_lt_Some in HA. rewrite length_take. lia. }
    unfold undo. rewrite HiB. case_decide; [|lia].
    replace (S (index (st_history sA)) - 1)%nat with (index (st_history sA)) by lia.
    rewrite HlA. cbn [mbind option_bind].
    eexists _, _. split; [reflexivity|]. split; [reflexivity|].
    unfold redo. cbn [st_history set_canRedo set_canUndo set_selectedIds set_elements set_history index stack].
    pose proof (pushHistory_top B sA) as HB. rewrite HiB in HB.
    pose proof (lookup_lt_Some _ _ _ HB).
    case_decide; [|lia].
    replace (index (st_history sA) + 1)%nat with (S (index (st_history sA))) by lia.
    rewrite HB. cbn. done.
  - intros H0. unfold undo. rewrite H0. done.
  - intros Hl. unfold redo. case_decide; [lia | done].
  - split; [apply pushHistory_stack|].
    split; [|split; [|apply redo_after_push]].
    + rewrite pushHistory_index, pushHistory_stack, length_app. cbn. lia.
    + intros Hlt. rewrite pushHistory_stack, length_app, length_take. cbn. lia.
Qed.

Lemma history_linear_witness :
  undo (initialState sampleCanvas) = Some (initialState sampleCanvas) ∧
  redo (initialState sampleCanvas) = Some (initialState sampleCanvas) ∧
  length (stack (st_history (pushHistory [] rewoundState))) = 2%nat.
Proof.
  destruct (history_linear (initialState sampleCanvas) [] [] [])
    as (_ & Hu & Hr & _).
  destruct (history_linear rewoundState [] [] [])
    as (_ & _ & _ & _ & _ & Hlen & _).
  split; [apply Hu; reflexivity|].
  split; [apply Hr; reflexivity|].
  apply Hlen. cbn. lia.
Defined.

(** The cursor stays a valid index: [pushHistory], [undo] and [redo]
    preserve [cursorValid]. *)
Lemma pushHistory_cursorValid els st : cursorValid (pushHistory els st).
Proof.
  unfold cursorValid. rewrite pushHistory_index, pushHistory_stack, length_app.
  cbn. lia.
Qed.

Lemma undo_cursorValid st st' :
  cursorValid st → undo st = Some st' → cursorValid st'.
Proof.
  unfold cursorValid, undo. intros Hv. case_decide; [|congruence].
  destruct (stack (st_history st) !! _); [|done].
  intros [= <-]. cbn. lia.
Qed.

Lemma redo_cursorValid st st' :
  cursorValid st → redo st = Some st' → cursorValid st'.
Proof.
  unfold cursorValid, redo. intros Hv. case_decide; [|congruence].
  destruct (stack (st_history st) !! _); [|done].
  intros [= <-]. cbn. lia.
Qed.

(** C10.  An [undo] or [redo] that moves the cursor replaces the scene by
    the snapshot under the new cursor and empties the selection. *)
Theorem undo_redo_reset_selection (st : State) :
  ((0 < index (st_history st))%nat → cursorValid st →
   ∃ st' snap,
     undo st = Some st' ∧
     stack (st_history st) !! (index (st_history st) - 1)%nat = Some snap ∧
     index (st_history st') = (index (st_history st) - 1)%nat ∧
     st_elements st' = snap ∧
     st_selectedIds st' = ∅) ∧
  ((index (st_history st) < length (stack (st_history st)) - 1)%nat →
   ∃ st' snap,
     redo st = Some st' ∧
     stack (st_history st) !! (index (st_history st) + 1)%nat = Some snap ∧
     index (st_history st') = (index (st_history st) + 1)%nat ∧
     st_elements st' = snap ∧
     st_selectedIds st' = ∅).
Proof.
  split.
  - intros Hpos Hv. unfold undo. case_decide; [|lia].
    destruct (lookup_lt_is_Some_2 (stack (st_history st))
                (index (st_history st) - 1)) as [snap Hs].
    { unfold cursorValid in Hv. lia. }
    rewrite Hs. eexists _, snap. cbn. done.
  - intros Hlt. unfold redo. case_decide; [|lia].
    destruct (lookup_lt_is_Some_2 (stack (st_history st))
                (index (st_history st) + 1)) as [snap Hs]; [lia|].
    rewrite Hs. eexists _, snap. cbn. done.
Qed.

Lemma undo_redo_reset_selection_witness :
  (∃ st' snap,
     undo oneRectState = Some st' ∧
     stack (st_history oneRectState) !! 0%nat = Some snap ∧
     index (st_history st') = 0%nat ∧
     st_elements st' = snap ∧ st_selectedIds st' = ∅) ∧
  (∃ st' snap,
     redo rewoundState = Some st' ∧
     stack (st_history rewoundState) !! 1%nat = Some snap ∧
     index (st_history st') = 1%nat ∧
     st_elements st' = snap ∧ st_selectedIds st' = ∅).
Proof.
  split.
  - apply (proj1 (undo_redo_reset_selection oneRectState)).
    + cbn. lia.
    + unfold cursorValid. cbn. lia.
  - apply (proj2 (undo_redo_reset_selection rewoundState)). cbn. lia.
Defined.

(** ** Viewport transform *)

Lemma Qcmin_le_l a b : Qcmin a b ≤ a.
Proof.
  unfold Qcmin. case_decide; [done|].
  apply Qclt_le_weak, Qclt_nge. done.
Qed.

Lemma Qcmin_le_r a b : Qcmin a b ≤ b.
Proof. unfold Qcmin. case_decide; done. Qed.

Lemma Qcmax_ge_l a b : a ≤ Qcmax a b.
Proof. unfold Qcmax. case_decide; done. Qed.

Lemma Qcmax_ge_r a b : b ≤ Qcmax a b.
Proof.
  unfold Qcmax. case_decide; [done|].
  apply Qclt_le_weak, Qclt_nge. done.
Qed.

Lemma clamp_bounds z :
  MIN_ZOOM ≤ Qcmax MIN_ZOOM (Qcmin MAX_ZOOM z) ≤ MAX_ZOOM.
Proof.
  split; [apply Qcmax_ge_l|].
  unfold Qcmax. case_decide; [apply Qcmin_le_l | done].
Qed.

Lemma clamp_id z :
  MIN_ZOOM ≤ z ≤ MAX_ZOOM → Qcmax MIN_ZOOM (Qcmin MAX_ZOOM z) = z.
Proof.
  intros [Hlo Hhi].
  assert (Hm : Qcmin MAX_ZOOM z = z).
  { unfold Qcmin. case_decide; [by apply (anti_symm (≤)) | done]. }
  rewrite Hm. unfold Qcmax. case_decide; done.
Qed.

(** C2.  [zoomAround] clamps the requested zoom to [[MIN_ZOOM, MAX_ZOOM]]
    (keeping a request that is already within the bounds), moves each offset
    by [screenCoord * (1/oldZoom - 1/newZoom)], and the world point under
    the screen point [(clientX - rect.left, clientY - rect.top)] is the same
    before and after.  The old zoom must be a number one can divide by. *)
Theorem zoomAround_fixes_point (st : State) (rect : Canvas)
    (cX cY z : Qc) :
  zoom (st_viewport st) ≠ 0 →
  let cx := cX - rect_left rect in
  let cy := cY - rect_top rect in
  let vp := st_viewport st in
  let vp' := st_viewport (zoomAround cx cy z st) in
  zoom vp' = Qcmax MIN_ZOOM (Qcmin MAX_ZOOM z) ∧
  MIN_ZOOM ≤ zoom vp' ≤ MAX_ZOOM ∧
  (MIN_ZOOM ≤ z ≤ MAX_ZOOM → zoom vp' = z) ∧
  offsetX vp' = offsetX vp + cx * (1 / zoom vp - 1 / zoom vp') ∧
  offsetY vp' = offsetY vp + cy * (1 / zoom vp - 1 / zoom vp') ∧
  clientToWorld cX cY rect vp' = clientToWorld cX cY rect vp.
Proof.
  intros Hz cx cy vp vp'.
  assert (Hc : Qcmax MIN_ZOOM (Qcmin MAX_ZOOM z) ≠ 0).
  { intros H0. pose proof (clamp_bounds z) as [Hlo _]. rewrite H0 in Hlo.
    by apply Qcle_ngt in Hlo. }
  split; [done|]. split; [apply clamp_bounds|].
  split; [apply clamp_id|]. split; [done|]. split; [done|].
  subst vp'. unfold clientToWorld, zoomAround. cbn.
  fold vp cx cy. f_equal; field; done.
Qed.

Lemma zoomAround_fixes_point_witness :
  clientToWorld (num 300) (num 200) sampleCanvas
    (st_viewport
       (zoomAround (num 300 - rect_left sampleCanvas)
          (num 200 - rect_top sampleCanvas) (num 3)
          (initialState sampleCanvas)))
  = clientToWorld (num 300) (num 200) sampleCanvas
      (st_viewport (initialState sampleCanvas)) ∧
  zoom (st_viewport
          (zoomAround (num 300 - rect_left sampleCanvas)
             (num 200 - rect_top sampleCanvas) (num 3)
             (initialState sampleCanvas))) = num 3.
Proof.
  destruct (zoomAround_fixes_point (initialState sampleCanvas) sampleCanvas
              (num 300) (num 200) (num 3)) as (_ & _ & Hin & _ & _ & Hw).
  { intros H0. apply (f_equal this) in H0. discriminate H0. }
  split; [exact Hw|]. apply Hin. split; vm_compute; discriminate.
Defined.

(** ** Selection and resize math *)

(** Comparisons between closed numerals. *)
Ltac qc_closed :=
  solve [ vm_compute; first [reflexivity | discriminate]
        | let H := fresh in intros H; vm_compute in H; first [discriminate H | done]
        | apply Qc_is_canon; reflexivity ].




(** ** Element geometry *)

Lemma inRect_spec rx ry rw rh el :
  inRect rx ry rw rh el = true ↔
  isDeleted el = false ∧
  rx ≤ b_x (getElementBounds el) ∧
  ry ≤ b_y (getElementBounds el) ∧
  b_x (getElementBounds el) + b_width (getElementBounds el) ≤ rx + rw ∧
  b_y (getElementBounds el) + b_height (getElementBounds el) ≤ ry + rh.
Proof.
  unfold inRect. destruct (isDeleted el).
  - split; [done | by intros [? _]].
  - rewrite !andb_true_iff, !bool_decide_eq_true. tauto.
Qed.

(** C8.  [getElementsInRect] returns, in scene order, exactly the entries
    that are not deleted and whose bounds lie wholly inside the query
    rectangle: min corner at or after the rectangle's min corner and max
    corner at or before its max corner, on both axes.  An element that
    sticks out on any side, and a soft-deleted element, is never returned. *)
Theorem getElementsInRect_exact (elements : list ExcalidrawElement)
    (rx ry rw rh : Qc) :
  getElementsInRect elements rx ry rw rh `sublist_of` elements ∧
  ∀ el,
    el ∈ getElementsInRect elements rx ry rw rh ↔
    el ∈ elements ∧
    isDeleted el = false ∧
    rx ≤ b_x (getElementBounds el) ∧
    ry ≤ b_y (getElementBounds el) ∧
    b_x (getElementBounds el) + b_width (getElementBounds el) ≤ rx + rw ∧
    b_y (getElementBounds el) + b_height (getElementBounds el) ≤ ry + rh.
Proof.
  split; [apply sublist_filter|].
  intros el. unfold getElementsInRect.
  rewrite list_elem_of_filter, inRect_spec. tauto.
Qed.

(** ** Moving gesture *)






(** ** Click with the selection tool *)









Lemma click_sets_differ selectedIds hitId :
  hitId ∈ selectedIds →
  activeIdsOf true selectedIds hitId = selectedIds ∧
  clickSelection true selectedIds hitId = selectedIds ∖ {[ hitId ]}.
Proof.
  unfold activeIdsOf, clickSelection. intros Hin. cbn.
  rewrite decide_True by done. split; [|done].
  apply set_eq. intros i. rewrite elem_of_union, elem_of_singleton.
  split; [intros [?| ->]; done | by left].
Qed.








(** ** Drawing gestures *)

Lemma handleMouseDown_shape rnd down st :
  truthy (st_editingTextId st) = None →
  isShapeTool (st_tool st) = true →
  button down = 0%Z →
  st_isSpace st = false →
  ∃ newEl,
    createElement rnd (st_tool st) (pt_x (worldOf st down))
      (pt_y (worldOf st down)) (asPartial (st_properties st)) = Some newEl ∧
    handleMouseDown rnd down st
    = Some (set_interaction
              (Drawing (pt_x (worldOf st down)) (pt_y (worldOf st down)))
              (set_drawingEl (Some newEl) st)).
Proof.
  intros Hed Ht Hb Hsp. unfold handleMouseDown. rewrite Hed, Hb, Hsp.
  fold (worldOf st down).
  destruct (st_tool st) eqn:Htool; try discriminate Ht;
    (eexists; split; [reflexivity|]); cbn; reflexivity.
Qed.

Lemma onMouseMove_drawing_box ev st sx sy el :
  st_interaction st = Drawing sx sy →
  st_drawingEl st = Some el →
  boxShape (shape el) →
  onMouseMove ev st
  = Some (set_drawingEl
            (Some (with_box el
                     (normalizeRect sx sy (pt_x (worldOf st ev))
                        (pt_y (worldOf st ev))))) st).
Proof.
  intros Hi Hd Hs. unfold onMouseMove. rewrite Hi, Hd.
  destruct Hs as [Hs|[Hs|Hs]]; rewrite Hs; done.
Qed.

Lemma moves_drawing_box evs ev st sx sy el :
  st_interaction st = Drawing sx sy →
  st_drawingEl st = Some el →
  boxShape (shape el) →
  moves (evs ++ [ev]) st
  = Some (set_drawingEl
            (Some (with_box el
                     (normalizeRect sx sy (pt_x (worldOf st ev))
                        (pt_y (worldOf st ev))))) st).
Proof.
  revert st el. induction evs as [|e1 evs IH]; intros st el Hi Hd Hs;
    cbn [moves app]; rewrite (onMouseMove_drawing_box _ _ _ _ _ Hi Hd Hs);
    cbn [mbind option_bind]; [done|].
  set (el1 := with_box el _).
  rewrite (IH (set_drawingEl (Some el1) st) el1 Hi eq_refl Hs).
  reflexivity.
Qed.

Lemma Qcabs_idemp v : Qcabs (Qcabs v) = Qcabs v.
Proof. apply Qcabs_pos, Qcabs_nonneg. Qed.

Lemma onMouseUp_drawing_valid st sx sy el :
  st_interaction st = Drawing sx sy →
  st_drawingEl st = Some el →
  isValid el = true →
  onMouseUp st
  = set_interaction Idle
      (set_drawingEl None
         (set_selectedIds {[ id el ]}
            (pushHistory (st_elements st ++ [el])
               (set_elements (st_elements st ++ [el]) st)))).
Proof. intros Hi Hd Hv. unfold onMouseUp. rewrite Hi, Hd, Hv. done. Qed.

Lemma onMouseUp_drawing_invalid st sx sy el :
  st_interaction st = Drawing sx sy →
  st_drawingEl st = Some el →
  isValid el = false →
  onMouseUp st = set_interaction Idle (set_drawingEl None st).
Proof. intros Hi Hd Hv. unfold onMouseUp. rewrite Hi, Hd, Hv. done. Qed.

Lemma createElement_box rnd t x0 y0 props :
  isBoxTool t = true →
  ∃ sh, boxShape sh ∧
        createElement rnd t x0 y0 props = Some (createBase rnd x0 y0 props sh).
Proof.
  unfold boxShape.
  destruct t; try discriminate; intros _; eexists; (split; [|reflexivity]); auto.
Qed.

Lemma isValid_box el :
  boxShape (shape el) →
  isValid el
  = bool_decide (num 2 < Qcabs (width el))
    || bool_decide (num 2 < Qcabs (height el)).
Proof.
  intros Hs. unfold isValid, pathPoints.
  destruct Hs as [Hs|[Hs|Hs]]; rewrite Hs; done.
Qed.

Lemma Qcminus_diag v : v - v = 0.
Proof. apply Qcplus_opp_r. Qed.

(** C5.  A rectangle, ellipse or diamond gesture that goes down at
    [(x1, y1)] and whose pointer was last reported at [(x2, y2)] (the down
    point itself when no move event came) commits the pending element with
    origin [(min x1 x2, min y1 y2)] and size [(|x2 - x1|, |y2 - y1|)], and
    selects it, exactly when [|x2 - x1| > 2] or [|y2 - y1| > 2]; otherwise
    scene, selection and history are left as they were.  Either way the
    pending element is dropped and the interaction returns to idle. *)
Theorem box_gesture_commit (rnd : Fresh) (down : MouseEvent)
    (evs : list MouseEvent) (st : State) :
  truthy (st_editingTextId st) = None →
  isBoxTool (st_tool st) = true →
  button down = 0%Z →
  st_isSpace st = false →
  let x1 := pt_x (worldOf st down) in
  let y1 := pt_y (worldOf st down) in
  let x2 := pt_x (worldOf st (List.last evs down)) in
  let y2 := pt_y (worldOf st (List.last evs down)) in
  ∃ st1 st2 newEl,
    handleMouseDown rnd down st = Some st1 ∧
    moves evs st1 = Some st2 ∧
    createElement rnd (st_tool st) x1 y1 (asPartial (st_properties st))
    = Some newEl ∧
    st_elements st2 = st_elements st ∧
    st_drawingEl (onMouseUp st2) = None ∧
    st_interaction (onMouseUp st2) = Idle ∧
    (num 2 < Qcabs (x2 - x1) ∨ num 2 < Qcabs (y2 - y1) →
     st_elements (onMouseUp st2)
     = st_elements st
       ++ [with_box newEl
             (mkBox (Qcmin x1 x2) (Qcmin y1 y2)
                (Qcabs (x2 - x1)) (Qcabs (y2 - y1)))] ∧
     st_selectedIds (onMouseUp st2) = {[ id newEl ]}) ∧
    (¬ (num 2 < Qcabs (x2 - x1) ∨ num 2 < Qcabs (y2 - y1)) →
     st_elements (onMouseUp st2) = st_elements st ∧
     st_selectedIds (onMouseUp st2) = st_selectedIds st ∧
     st_history (onMouseUp st2) = st_history st).
Proof.
  intros Hed Ht Hb Hsp x1 y1 x2 y2.
  assert (Hshape : isShapeTool (st_tool st) = true)
    by (destruct (st_tool st); done).
  destruct (handleMouseDown_shape rnd down st Hed Hshape Hb Hsp)
    as (newEl & Hnew & Hdown).
  destruct (createElement_box rnd (st_tool st) x1 y1
              (asPartial (st_properties st)) Ht) as (sh & Hsh & Hmk).
  subst x1 y1. rewrite Hmk in Hnew. injection Hnew as <-.
  set (x1 := pt_x (worldOf st down)) in *.
  set (y1 := pt_y (worldOf st down)) in *.
  set (newEl := createBase rnd x1 y1 (asPartial (st_properties st)) sh) in *.
  set (st1 := set_interaction (Drawing x1 y1) (set_drawingEl (Some newEl) st))
    in *.
  exists st1.
  destruct evs as [|ev evs _] using rev_ind.
  - (* no move event: the pending element still has zero size *)
    exists st1, newEl. split; [done|]. split; [done|]. split; [done|].
    split; [done|].
    assert (Hinv : isValid newEl = false).
    { rewrite isValid_box by done. cbn [width height newEl createBase].
      rewrite !bool_decide_eq_false_2 by qc_closed. done. }
    rewrite (onMouseUp_drawing_invalid st1 x1 y1 newEl eq_refl eq_refl Hinv).
    split; [done|]. split; [done|]. split; [|done].
    intros Hbig. exfalso. subst x2 y2. cbn [List.last] in Hbig.
    fold x1 y1 in Hbig. rewrite !Qcminus_diag in Hbig.
    destruct Hbig as [Hbig|Hbig]; revert Hbig; qc_closed.
  - subst x2 y2. rewrite last_last.
    set (x2 := pt_x (worldOf st ev)). set (y2 := pt_y (worldOf st ev)).
    set (el := with_box newEl (normalizeRect x1 y1 x2 y2)).
    exists (set_drawingEl (Some el) st1), newEl.
    split; [done|].
    split; [exact (moves_drawing_box evs ev st1 x1 y1 newEl eq_refl eq_refl Hsh)|].
    split; [done|]. split; [done|].
    assert (Hval : isValid el
                   = bool_decide (num 2 < Qcabs (x2 - x1))
                     || bool_decide (num 2 < Qcabs (y2 - y1))).
    { rewrite isValid_box by done. cbn [width height el with_box normalizeRect
        b_width b_height]. by rewrite !Qcabs_idemp. }
    destruct (isValid el) eqn:Hv.
    + rewrite (onMouseUp_drawing_valid (set_drawingEl (Some el) st1) x1 y1 el
                 eq_refl eq_refl Hv).
      split; [done|]. split; [done|]. split; [done|].
      intros Hsmall. exfalso. apply Hsmall. symmetry in Hval.
      apply orb_true_iff in Hval as [Hc|Hc]; apply bool_decide_eq_true in Hc; auto.
    + rewrite (onMouseUp_drawing_invalid (set_drawingEl (Some el) st1) x1 y1 el
                 eq_refl eq_refl Hv).
      split; [done|]. split; [done|]. split; [|done].
      intros Hbig. exfalso. symmetry in Hval.
      apply orb_false_iff in Hval as [Hc1 Hc2].
      apply bool_decide_eq_false in Hc1, Hc2. tauto.
Qed.

Lemma box_gesture_commit_witness :
  (∃ st1 st2 el,
     handleMouseDown sampleFresh (press 50 50) rectToolState = Some st1 ∧
     moves [dragTo 30 20; dragTo 10 10] st1 = Some st2 ∧
     st_elements (onMouseUp st2) = [el] ∧
     x el = num 10 ∧ y el = num 10 ∧
     width el = num 40 ∧ height el = num 40) ∧
  (∃ st1 st2,
     handleMouseDown sampleFresh (press 50 50) rectToolState = Some st1 ∧
     moves [dragTo 51 51] st1 = Some st2 ∧
     st_elements (onMouseUp st2) = [] ∧
     st_history (onMouseUp st2) = st_history rectToolState).
Proof.
  split.
  - destruct (box_gesture_commit sampleFresh (press 50 50)
                [dragTo 30 20; dragTo 10 10] rectToolState
                eq_refl eq_refl eq_refl eq_refl)
      as (st1 & st2 & newEl & Hd & Hm & _ & _ & _ & _ & Hbig & _).
    destruct Hbig as [Hels _]; [left; vm_compute; reflexivity|].
    eexists st1, st2, _. split; [exact Hd|]. split; [exact Hm|].
    split; [exact Hels|].
    repeat split; apply Qc_is_canon; reflexivity.
  - destruct (box_gesture_commit sampleFresh (press 50 50)
                [dragTo 51 51] rectToolState eq_refl eq_refl eq_refl eq_refl)
      as (st1 & st2 & newEl & Hd & Hm & _ & _ & _ & _ & _ & Hsmall).
    destruct Hsmall as (Hels & _ & Hh).
    { intros [H|H]; vm_compute in H; discriminate H. }
    exists st1, st2. split; [exact Hd|]. split; [exact Hm|].
    split; [exact Hels | exact Hh].
Defined.

Lemma createElement_path rnd t x0 y0 props :
  isPathTool t = true →
  ∃ mk, pathCtor mk ∧
        createElement rnd t x0 y0 props
        = Some (createBase rnd x0 y0 props (mk [mkPoint 0 0])).
Proof.
  unfold pathCtor.
  destruct t; try discriminate; intros _; eexists; (split; [|reflexivity]); auto.
Qed.

Lemma onMouseMove_drawing_path ev st sx sy el mk ps :
  st_interaction st = Drawing sx sy →
  st_drawingEl st = Some el →
  pathCtor mk →
  shape el = mk ps →
  onMouseMove ev st
  = Some (set_drawingEl
            (Some (with_shape el
                     (mk [mkPoint 0 0;
                          mkPoint (pt_x (worldOf st ev) - x el)
                            (pt_y (worldOf st ev) - y el)]))) st).
Proof.
  intros Hi Hd Hmk Hs. unfold onMouseMove. rewrite Hi, Hd, Hs.
  destruct Hmk as [-> | ->]; done.
Qed.

Lemma moves_drawing_path evs ev st sx sy el mk ps :
  st_interaction st = Drawing sx sy →
  st_drawingEl st = Some el →
  pathCtor mk →
  shape el = mk ps →
  moves (evs ++ [ev]) st
  = Some (set_drawingEl
            (Some (with_shape el
                     (mk [mkPoint 0 0;
                          mkPoint (pt_x (worldOf st ev) - x el)
                            (pt_y (worldOf st ev) - y el)]))) st).
Proof.
  revert st el ps. induction evs as [|e1 evs IH]; intros st el ps Hi Hd Hmk Hs;
    cbn [moves app];
    rewrite (onMouseMove_drawing_path _ _ _ _ _ _ _ Hi Hd Hmk Hs);
    cbn [mbind option_bind]; [done|].
  set (el1 := with_shape el _).
  rewrite (IH (set_drawingEl (Some el1) st) el1 _ Hi eq_refl Hmk eq_refl).
  reflexivity.
Qed.

Lemma isValid_path el mk ps :
  pathCtor mk → shape el = mk ps →
  isValid el = bool_decide (2 ≤ length ps)%nat.
Proof.
  intros Hmk Hs. unfold isValid, pathPoints. rewrite Hs.
  destruct Hmk as [-> | ->]; done.
Qed.

(** C6, amended.  A line or arrow gesture with at least one move event has
    a pending element with exactly the two points [(0,0)] and (pointer -
    anchor) at pointer-up, and is committed and selected.  With no move
    event the pending element still has the single point [(0,0)] it was
    created with, and pointer-up drops it: scene and history are unchanged. *)
Theorem path_gesture_commit (rnd : Fresh) (down : MouseEvent)
    (evs : list MouseEvent) (ev : MouseEvent) (st : State) :
  truthy (st_editingTextId st) = None →
  isPathTool (st_tool st) = true →
  button down = 0%Z →
  st_isSpace st = false →
  let x1 := pt_x (worldOf st down) in
  let y1 := pt_y (worldOf st down) in
  let x2 := pt_x (worldOf st ev) in
  let y2 := pt_y (worldOf st ev) in
  ∃ st1 st2 newEl el,
    handleMouseDown rnd down st = Some st1 ∧
    createElement rnd (st_tool st) x1 y1 (asPartial (st_properties st))
    = Some newEl ∧
    (* pointer-down directly followed by pointer-up *)
    st_drawingEl st1 = Some newEl ∧
    pathPoints newEl = Some [mkPoint 0 0] ∧
    st_elements (onMouseUp st1) = st_elements st ∧
    st_history (onMouseUp st1) = st_history st ∧
    st_drawingEl (onMouseUp st1) = None ∧
    (* at least one pointer-move in between *)
    moves (evs ++ [ev]) st1 = Some st2 ∧
    st_drawingEl st2 = Some el ∧
    pathPoints el = Some [mkPoint 0 0; mkPoint (x2 - x1) (y2 - y1)] ∧
    st_elements (onMouseUp st2) = st_elements st ++ [el] ∧
    st_selectedIds (onMouseUp st2) = {[ id el ]}.
Proof.
  intros Hed Ht Hb Hsp x1 y1 x2 y2.
  assert (Hshape : isShapeTool (st_tool st) = true)
    by (destruct (st_tool st); done).
  destruct (handleMouseDown_shape rnd down st Hed Hshape Hb Hsp)
    as (newEl & Hnew & Hdown).
  destruct (createElement_path rnd (st_tool st) x1 y1
              (asPartial (st_properties st)) Ht) as (mk & Hmk & Hcr).
  subst x1 y1. rewrite Hcr in Hnew. injection Hnew as <-.
  set (x1 := pt_x (worldOf st down)) in *.
  set (y1 := pt_y (worldOf st down)) in *.
  set (newEl := createBase rnd x1 y1 (asPartial (st_properties st))
                  (mk [mkPoint 0 0])) in *.
  set (st1 := set_interaction (Drawing x1 y1) (set_drawingEl (Some newEl) st))
    in *.
  set (el := with_shape newEl (mk [mkPoint 0 0; mkPoint (x2 - x1) (y2 - y1)])).
  exists st1, (set_drawingEl (Some el) st1), newEl, el.
  assert (Hpp : ∀ e' ps, shape e' = mk ps → pathPoints e' = Some ps).
  { intros e' ps Hs. unfold pathPoints. rewrite Hs.
    destruct Hmk as [-> | ->]; done. }
  split; [done|]. split; [done|]. split; [done|].
  split; [by apply Hpp|].
  assert (Hinv : isValid newEl = false)
    by (by rewrite (isValid_path newEl mk [mkPoint 0 0] Hmk eq_refl)).
  rewrite (onMouseUp_drawing_invalid st1 x1 y1 newEl eq_refl eq_refl Hinv).
  split; [done|]. split; [done|]. split; [done|].
  split; [exact (moves_drawing_path evs ev st1 x1 y1 newEl mk _ eq_refl eq_refl
                   Hmk eq_refl)|].
  split; [done|]. split; [by apply Hpp|].
  assert (Hval : isValid el = true)
    by (by rewrite (isValid_path el mk _ Hmk eq_refl)).
  rewrite (onMouseUp_drawing_valid (set_drawingEl (Some el) st1) x1 y1 el
             eq_refl eq_refl Hval).
  done.
Qed.

Lemma path_gesture_commit_witness :
  ∃ st1 st2 el,
    handleMouseDown sampleFresh (press 50 50) lineToolState = Some st1 ∧
    st_elements (onMouseUp st1) = [] ∧
    moves ([dragTo 70 10] ++ [dragTo 80 90]) st1 = Some st2 ∧
    pathPoints el
    = Some [mkPoint 0 0;
            mkPoint (pt_x (worldOf lineToolState (dragTo 80 90))
                     - pt_x (worldOf lineToolState (press 50 50)))
                    (pt_y (worldOf lineToolState (dragTo 80 90))
                     - pt_y (worldOf lineToolState (press 50 50)))] ∧
    st_elements (onMouseUp st2) = [el].
Proof.
  destruct (path_gesture_commit sampleFresh (press 50 50) [dragTo 70 10]
              (dragTo 80 90) lineToolState eq_refl eq_refl eq_refl eq_refl)
    as (st1 & st2 & newEl & el & Hd & _ & _ & _ & Hup1 & _ & _ & Hm & _
        & Hpts & Hup2 & _).
  exists st1, st2, el. split; [exact Hd|]. split; [exact Hup1|].
  split; [exact Hm|]. split; [exact Hpts | exact Hup2].
Defined.

(** C6 as stated fails on a click: with the line tool, pointer-down at
    (50, 50) directly followed by pointer-up leaves a pending element with
    one point, which does not pass the validity check and is not committed. *)
Lemma line_click_not_committed :
  ∃ st1 el,
    handleMouseDown sampleFresh (press 50 50) lineToolState = Some st1 ∧
    moves [] st1 = Some st1 ∧
    st_drawingEl st1 = Some el ∧
    pathPoints el = Some [mkPoint 0 0] ∧
    isValid el = false ∧
    st_elements (onMouseUp st1) = [] ∧
    st_drawingEl (onMouseUp st1) = None.
Proof.
  eexists _, _. split; [reflexivity|]. split; [reflexivity|].
  split; [reflexivity|]. split; [reflexivity|]. split; [reflexivity|].
  split; reflexivity.
Qed.

(** ** Tool change *)

(** C9 as stated fails: with rectangle ["a"] selected, the shortcut [r]
    (and likewise the toolbar, which calls the same [setTool]) switches to
    the rectangle tool and the selection is still [{a}], not empty. *)
Lemma tool_change_keeps_selection_example :
  ∃ st',
    onKeyDown (plainKey "r") oneRectState = Some st' ∧
    st' = setTool Rectangle oneRectState ∧
    st_tool st' = Rectangle ∧
    st_selectedIds st' = {[ "a" ]} ∧
    st_selectedIds st' ≠ ∅.
Proof.
  exists (setTool Rectangle oneRectState).
  split; [reflexivity|]. split; [reflexivity|].
  split; [reflexivity|]. split; [reflexivity|].
  intros Heq. apply (not_elem_of_empty (C:=gset string) "a").
  rewrite <- Heq. change ("a" ∈ ({[ "a" ]} : gset string)).
  by apply elem_of_singleton.
Qed.

(** C9, amended.  A tool change, to a drawing tool or any other, sets the
    tool and nothing else: the selection (like the scene, the history and
    the interaction) is what it was.  [setTool] is all that the toolbar's
    [onToolChange] and a tool shortcut typed outside an input, without ctrl
    or meta, do. *)
Theorem tool_change_keeps_selection (t : Tool) (st : State) :
  st_tool (setTool t st) = t ∧
  st_selectedIds (setTool t st) = st_selectedIds st ∧
  st_elements (setTool t st) = st_elements st ∧
  st_history (setTool t st) = st_history st ∧
  st_interaction (setTool t st) = st_interaction st ∧
  ∀ ev,
    inInput ev = false → k_ctrlKey ev = false → k_metaKey ev = false →
    toolMap (key ev) = Some t →
    onKeyDown ev st = Some (setTool t st).
Proof.
  repeat (split; [reflexivity|]).
  intros ev Hin Hc Hm Hk. unfold onKeyDown. rewrite Hin, Hc, Hm, Hk. cbn.
  rewrite bool_decide_eq_false_2; [done|].
  intros Hsp. rewrite Hsp in Hk. discriminate Hk.
Qed.

Lemma tool_change_keeps_selection_witness :
  onKeyDown (plainKey "r") oneRectState = Some (setTool Rectangle oneRectState) ∧
  st_selectedIds (setTool Rectangle oneRectState) = st_selectedIds oneRectState.
Proof.
  destruct (tool_change_keeps_selection Rectangle oneRectState)
    as (_ & Hsel & _ & _ & _ & Hkey).
  split; [|exact Hsel].
  apply Hkey; reflexivity.
Defined.

(** ** Invariants of the state machine *)

Lemma stateOk_same st st' :
  st_history st' = st_history st → st_viewport st' = st_viewport st →
  stateOk st → stateOk st'.
Proof. unfold stateOk, cursorValid, zoomValid. by intros -> ->. Qed.

Lemma stateOk_push els st : stateOk st → stateOk (pushHistory els st).
Proof. intros [_ Hz]. split; [apply pushHistory_cursorValid | exact Hz]. Qed.

Lemma stateOk_commitTextEdit st : stateOk st → stateOk (commitTextEdit st).
Proof.
  intros Hok. unfold commitTextEdit. destruct (truthy _); [|done].
  destruct Hok as [_ Hz]. split; [|exact Hz].
  match goal with
  | |- cursorValid (set_editingTextId None (pushHistory ?els ?s0)) =>
      exact (pushHistory_cursorValid els s0)
  end.
Qed.

Lemma stateOk_undo st st' : undo st = Some st' → stateOk st → stateOk st'.
Proof.
  intros Hu [Hc Hz]. split; [by eapply undo_cursorValid|].
  unfold undo in Hu. case_decide; [|by simplify_eq].
  destruct (stack _ !! _); [|done]. cbn in Hu. simplify_eq. exact Hz.
Qed.

Lemma stateOk_redo st st' : redo st = Some st' → stateOk st → stateOk st'.
Proof.
  intros Hu [Hc Hz]. split; [by eapply redo_cursorValid|].
  unfold redo in Hu. case_decide; [|by simplify_eq].
  destruct (stack _ !! _); [|done]. cbn in Hu. simplify_eq. exact Hz.
Qed.

Lemma stateOk_zoomAround cx cy z st : stateOk st → stateOk (zoomAround cx cy z st).
Proof. intros [Hc _]. split; [exact Hc | apply clamp_bounds]. Qed.

Ltac same_ok Hok := (eapply stateOk_same; [| |exact Hok]; reflexivity).

Lemma stateOk_handleMouseDown rnd ev st st' :
  handleMouseDown rnd ev st = Some st' → stateOk st → stateOk st'.
Proof.
  intros Hd Hok. unfold handleMouseDown in Hd.
  case_bool_decide; [injection Hd as <-; by apply stateOk_commitTextEdit|].
  destruct (_ || _); [injection Hd as <-; same_ok Hok|].
  case_decide; [by simplify_eq|].
  destruct (st_tool st).
  - unfold selectDown in Hd.
    repeat case_match; try (injection Hd as <-; same_ok Hok).
    all: unfold selectHitTest in Hd; repeat case_match; simplify_option_eq;
      same_ok Hok.
  - by simplify_eq.
  - simplify_option_eq. same_ok Hok.
  - simplify_option_eq. same_ok Hok.
  - simplify_option_eq. same_ok Hok.
  - simplify_option_eq. same_ok Hok.
  - simplify_option_eq. same_ok Hok.
  - simplify_option_eq. same_ok Hok.
  - repeat case_match; simplify_option_eq; same_ok Hok.
  - repeat case_match; simplify_option_eq; [|done].
    destruct Hok as [_ Hz]. split; [|exact Hz].
    match goal with
    | |- cursorValid (set_selectedIds ∅ (pushHistory ?els ?s0)) =>
        exact (pushHistory_cursorValid els s0)
    end.
Qed.

Lemma stateOk_onMouseMove ev st st' :
  onMouseMove ev st = Some st' → stateOk st → stateOk st'.
Proof.
  intros Hm Hok. unfold onMouseMove in Hm.
  repeat case_match; simplify_option_eq; try same_ok Hok.
  destruct Hok as [Hc Hz]. split; [exact Hc | exact Hz].
Qed.

Lemma stateOk_onMouseUp st : stateOk st → stateOk (onMouseUp st).
Proof.
  intros Hok. pose proof Hok as [Hc Hz]. unfold onMouseUp.
  destruct (st_interaction st); try same_ok Hok.
  - destruct (st_drawingEl st) as [el|]; [|same_ok Hok].
    destruct (isValid el); [|same_ok Hok].
    split; [|exact Hz].
    exact (pushHistory_cursorValid (st_elements st ++ [el])
             (set_elements (st_elements st ++ [el]) st)).
  - destruct (st_drawingEl st) as [el|]; [|same_ok Hok].
    destruct (isValid el); [|same_ok Hok].
    split; [|exact Hz].
    exact (pushHistory_cursorValid (st_elements st ++ [el])
             (set_elements (st_elements st ++ [el]) st)).
  - split; [|exact Hz]. exact (pushHistory_cursorValid (st_elements st) st).
  - split; [|exact Hz]. exact (pushHistory_cursorValid (st_elements st) st).
Qed.

Lemma stateOk_handleWheel ev st : stateOk st → stateOk (handleWheel ev st).
Proof.
  intros Hok. unfold handleWheel.
  destruct (_ || _); [by apply stateOk_zoomAround|].
  destruct Hok as [Hc Hz]. split; [exact Hc | exact Hz].
Qed.

Lemma stateOk_reset st : stateOk st → stateOk (set_viewport (mkViewport 1 0 0) st).
Proof.
  intros [Hc _]. split; [exact Hc|]. split; qc_closed.
Qed.

Lemma stateOk_onKeyDown ev st st' :
  onKeyDown ev st = Some st' → stateOk st → stateOk st'.
Proof.
  intros Hk Hok. unfold onKeyDown in Hk.
  set (st0 := if _ && _ then set_isSpace true st else st) in Hk.
  assert (Hok0 : stateOk st0).
  { subst st0. destruct (_ && _); [same_ok Hok | exact Hok]. }
  clearbody st0. clear Hok.
  destruct (inInput ev).
  { injection Hk as <-. case_decide; [by apply stateOk_commitTextEdit | done]. }
  destruct (_ && bool_decide (key ev = "z")).
  { destruct (k_shiftKey ev); [by eapply stateOk_redo | by eapply stateOk_undo]. }
  destruct (_ && bool_decide (key ev = "y")); [by eapply stateOk_redo|].
  destruct (_ && bool_decide (key ev = "a")).
  { injection Hk as <-. same_ok Hok0. }
  destruct (_ && bool_decide (key ev = "=" ∨ _)).
  { injection Hk as <-. by apply stateOk_zoomAround. }
  destruct (_ && bool_decide (key ev = "-")).
  { injection Hk as <-. by apply stateOk_zoomAround. }
  destruct (_ && bool_decide (key ev = "0")).
  { injection Hk as <-. by apply stateOk_reset. }
  destruct (if _ || _ then None else toolMap (key ev)).
  { injection Hk as <-. same_ok Hok0. }
  case_decide.
  { case_decide; injection Hk as <-; [|done].
    destruct Hok0 as [_ Hz]. split; [|exact Hz].
    match goal with
    | |- cursorValid (set_selectedIds ∅ (pushHistory ?els ?s0)) =>
        exact (pushHistory_cursorValid els s0)
    end. }
  case_decide.
  { injection Hk as <-. apply stateOk_commitTextEdit. same_ok Hok0. }
  case_decide; injection Hk as <-; [same_ok Hok0 | done].
Qed.

(** Every handler keeps the history cursor valid and the zoom within its
    bounds. *)
Lemma step_stateOk e st st' : step e st = Some st' → stateOk st → stateOk st'.
Proof.
  destruct e; cbn [step]; intros Hs Hok; try (injection Hs as <-).
  - by eapply stateOk_handleMouseDown.
  - by eapply stateOk_onMouseMove.
  - by apply stateOk_onMouseUp.
  - by apply stateOk_handleWheel.
  - by eapply stateOk_onKeyDown.
  - unfold onKeyUp. case_decide; [same_ok Hok | done].
  - same_ok Hok.
  - by eapply stateOk_undo.
  - by eapply stateOk_redo.
  - same_ok Hok.
  - unfold clearCanvas. destruct confirmed; [|done].
    destruct Hok as [_ Hz]. split; [|exact Hz].
    exact (pushHistory_cursorValid [] (set_selectedIds ∅ (set_elements [] st))).
  - by apply stateOk_zoomAround.
  - by apply stateOk_zoomAround.
  - by apply stateOk_reset.
  - same_ok Hok.
  - by apply stateOk_commitTextEdit.
Qed.

Lemma initialState_stateOk canvas : stateOk (initialState canvas).
Proof. split; [unfold cursorValid; cbn; lia | split; qc_closed]. Qed.

Lemma run_stateOk es st st' : run es st = Some st' → stateOk st → stateOk st'.
Proof.
  revert st. induction es as [|e es IH]; intros st Hr Hok; cbn in Hr.
  - by simplify_eq.
  - destruct (step e st) as [st1|] eqn:Hs; [|done].
    apply (IH st1 Hr). by eapply step_stateOk.
Qed.

(** On every state the editor can reach from its mount the cursor is valid
    and the zoom is a number one can divide by. *)
Lemma reachable_stateOk canvas es st :
  run es (initialState canvas) = Some st →
  cursorValid st ∧ zoom (st_viewport st) ≠ 0.
Proof.
  intros Hr. destruct (run_stateOk _ _ _ Hr (initialState_stateOk canvas))
    as [Hc [Hlo _]].
  split; [exact Hc|]. intros H0. rewrite H0 in Hlo. revert Hlo. qc_closed.
Qed.
